(** * Loan calculator: the amortization engine of [loan_calculator/app.py]

    A shallow embedding of the computational core of the Streamlit loan
    calculator (the two normalizers, [monthly_payment], [principal_payment],
    [amortization], [total_monthly_payment], [calculate] and the numbers
    [main] computes for display) together with the properties its
    specification states about it and further properties of the code.

    Numbers.  The program computes on Python [float]s, and the engine is
    embedded twice.

    The first embedding is in exact rational arithmetic, on [Q]: every [+],
    [-], [*], [/] and [**] of the source is the corresponding operation of
    [Q], with no rounding, no overflow and no NaN, and equality of amounts
    is [Qeq] (written [==]).  The one failure the source can signal there is
    the [ZeroDivisionError] of a division by zero.  It carries the
    properties that rounding does not change (lengths, branches, order) and
    the statements made in exact arithmetic.

    The second embedding, the module [F64], is the same code on binary64
    floats ([PrimFloat], round to nearest even), with the two exceptions
    float arithmetic has in Python: [ZeroDivisionError] and the
    [OverflowError] of [**].  It carries what depends on rounding. *)

From Stdlib Require Import QArith Qpower Qfield Lqa Lia List ZArith Bool.
From Stdlib Require Import PrimFloat.
Import ListNotations.
Open Scope Q_scope.

(** ** The fragment of Python the program uses *)

Module Py.

Inductive exn : Set := ZeroDivisionError | OverflowError.

Inductive result (A : Type) : Type :=
| Ok (a : A)
| Raise (e : exn).

Arguments Ok {A} a.
Arguments Raise {A} e.

Definition bind {A B : Type} (c : result A) (k : A -> result B) : result B :=
  match c with
  | Ok a => k a
  | Raise e => Raise e
  end.

(** [x / y] on floats: raises when the divisor is zero. *)
Definition truediv (x y : Q) : result Q :=
  if Qeq_bool y 0 then Raise ZeroDivisionError else Ok (x / y).

(** [range(start, stop)]. *)
Definition range (start stop : nat) : list nat := seq start (stop - start).

(** [sum(l)], and the [.sum()] of a data-frame column: left to right
    from [0]. *)
Definition sum (l : list Q) : Q := fold_left Qplus l 0.

(** [zip(a, b, c)]: stops at the shortest argument. *)
Fixpoint zip3 {A B C : Type} (a : list A) (b : list B) (c : list C)
  : list (A * B * C) :=
  match a, b, c with
  | x :: a', y :: b', z :: c' => (x, y, z) :: zip3 a' b' c'
  | _, _, _ => []
  end.

End Py.

Notation "x <- c ;; k" := (Py.bind c (fun x => k))
  (at level 61, c at next level, right associativity).

Import Py.

(** [0 <= v <= 1], the chained comparison both normalizers test. *)
Definition in_unit_interval (v : Q) : bool := Qle_bool 0 v && Qle_bool v 1.

(** ** The normalizers *)

Definition convert_down_payment (down_pmt sale_price : Q) : Q :=
  if in_unit_interval down_pmt then sale_price * down_pmt else down_pmt.

Definition convert_rates (rate : Q) : Q :=
  if in_unit_interval rate then rate else rate / 100.

(** ** The fixed monthly payment *)

Definition monthly_payment (monthly_interest_rate financed_amt : Q) : result Q :=
  let numer := monthly_interest_rate * (1 + monthly_interest_rate) ^ 361 in
  let denom := (1 + monthly_interest_rate) ^ 361 - 1 in
  q <- truediv numer denom ;;
  Ok (financed_amt * q).

(** ** The schedule *)

Definition principal_payment
  (monthly_payment monthly_interest_rate financed_amt : Q) : Q :=
  monthly_payment - (financed_amt * monthly_interest_rate).

(** The variables the loop of [amortization] updates: the three lists it
    appends to and its parameter [financed_amt], which it reassigns. *)
Record loop_state : Type := mk_state {
  st_interest_pmt : list Q;
  st_principal_pmt : list Q;
  st_balance : list Q;
  st_financed_amt : Q
}.

(** One pass through the body of the [for] loop. *)
Definition amortization_body (monthly_payment monthly_interest_rate : Q)
  (st : loop_state) (_ : nat) : loop_state :=
  let principal :=
    principal_payment monthly_payment monthly_interest_rate (st_financed_amt st) in
  let interest := monthly_payment - principal in
  let interest_pmt := st_interest_pmt st ++ [interest] in
  let principal_pmt := st_principal_pmt st ++ [principal] in
  let financed_amt := st_financed_amt st - principal in
  mk_state interest_pmt principal_pmt (st_balance st ++ [financed_amt]) financed_amt.

(** The loop run over any list of indices; the program runs it over
    [range(1, 362)]. *)
Definition amortization_loop (monthly_payment monthly_interest_rate : Q)
  (indices : list nat) (st : loop_state) : loop_state :=
  fold_left (amortization_body monthly_payment monthly_interest_rate) indices st.

(** Returns [(principal_pmt, interest_pmt, balance)]. *)
Definition amortization
  (monthly_payment monthly_interest_rate financed_amt : Q)
  : list Q * list Q * list Q :=
  let st := amortization_loop monthly_payment monthly_interest_rate
              (range 1 362) (mk_state [] [] [] financed_amt) in
  (st_principal_pmt st, st_interest_pmt st, st_balance st).

(** ** The monthly housing cost *)

Definition total_monthly_payment
  (monthly_payment property_taxes home_insurance hoa sale_price : Q)
  : Q * Q * Q :=
  let monthly_home_insurance := home_insurance / 12 in
  let monthly_property_tax := (sale_price * property_taxes) / 12 in
  let total_payment :=
    monthly_payment + monthly_home_insurance + monthly_property_tax + hoa in
  (total_payment, monthly_home_insurance, monthly_property_tax).

(** ** The entry point *)

(** The keyword arguments of [calculate]: a dictionary with these six keys. *)
Record kwargs : Type := mk_kwargs {
  sale_price : Q;
  down_pmt : Q;
  interest_rate : Q;
  property_taxes : Q;
  home_insurance : Q;
  hoa : Q
}.

(** The dictionary [calculate] returns, without its chart.  The data frame
    under ["amortization"] is the list of its rows, each
    [(Principal Payment, Interest Payment, Balance)]. *)
Record response : Type := mk_response {
  resp_financed_amt : Q;
  resp_monthly_pmt : Q;
  resp_amortization : list (Q * Q * Q);
  resp_total_payment : Q;
  resp_monthly_home_insurance : Q;
  resp_monthly_property_tax : Q
}.

(** Each assignment [kwargs["k"] = ...] of the source is the [let] of the
    same name: the later reads of [kwargs["k"]] see the converted value. *)
Definition calculate (kw : kwargs) : result response :=
  let down_pmt := convert_down_payment (down_pmt kw) (sale_price kw) in
  let financed_amt := sale_price kw - down_pmt in
  let property_taxes := convert_rates (property_taxes kw) in
  let interest_rate := convert_rates (interest_rate kw) in
  let monthly_interest_rate := interest_rate / 12 in
  monthly_pmt <- monthly_payment monthly_interest_rate financed_amt ;;
  let '(principal_pmt, interest_pmt, balance) :=
    amortization monthly_pmt monthly_interest_rate financed_amt in
  let '(total_payment, monthly_home_insurance, monthly_property_tax) :=
    total_monthly_payment monthly_pmt property_taxes (home_insurance kw)
      (hoa kw) (sale_price kw) in
  let df := zip3 principal_pmt interest_pmt balance in
  Ok (mk_response financed_amt monthly_pmt df total_payment
        monthly_home_insurance monthly_property_tax).

(** ** Views of the result *)

(** The three lists [amortization] returns, one by one. *)
Definition principal_column (monthly_payment monthly_interest_rate financed_amt : Q)
  : list Q :=
  fst (fst (amortization monthly_payment monthly_interest_rate financed_amt)).

Definition interest_column (monthly_payment monthly_interest_rate financed_amt : Q)
  : list Q :=
  snd (fst (amortization monthly_payment monthly_interest_rate financed_amt)).

Definition balance_column (monthly_payment monthly_interest_rate financed_amt : Q)
  : list Q :=
  snd (amortization monthly_payment monthly_interest_rate financed_amt).

(** The schedule as [calculate] hands it on: the rows of
    [zip(principal_pmt, interest_pmt, balance)]. *)
Definition amortization_rows
  (monthly_payment monthly_interest_rate financed_amt : Q) : list (Q * Q * Q) :=
  zip3 (principal_column monthly_payment monthly_interest_rate financed_amt)
       (interest_column monthly_payment monthly_interest_rate financed_amt)
       (balance_column monthly_payment monthly_interest_rate financed_amt).

(** The balance a period starts from: the financed amount for the first
    row, the previous row's balance afterwards. *)
Definition opening_balance (financed_amt : Q) (balance : list Q) (t : nat) : Q :=
  match t with
  | O => financed_amt
  | S k => nth k balance 0
  end.

(** Two rows hold the same amounts. *)
Definition row_eq (x y : Q * Q * Q) : Prop :=
  fst (fst x) == fst (fst y) /\ snd (fst x) == snd (fst y) /\ snd x == snd y.

(** ** One period, in the two orders *)

(** What one pass of the loop body computes from the running balance:
    the row it appends, whose last component is the new balance. *)
Definition code_step (monthly_payment monthly_interest_rate balance : Q)
  : Q * Q * Q :=
  let principal :=
    principal_payment monthly_payment monthly_interest_rate balance in
  let interest := monthly_payment - principal in
  (principal, interest, balance - principal).

(** The period as the specification words it: interest first, then
    principal, then the balance. *)
Definition spec_step (monthlyPayment monthlyInterestRate remaining : Q)
  : Q * Q * Q :=
  let interestPayment := remaining * monthlyInterestRate in
  let principalPayment := monthlyPayment - interestPayment in
  (principalPayment, interestPayment, remaining - principalPayment).

(** [computeSchedule] as the specification words it, for [termMonths]
    periods. *)
Fixpoint spec_computeSchedule (monthlyPayment monthlyInterestRate remaining : Q)
  (termMonths : nat) : list (Q * Q * Q) :=
  match termMonths with
  | O => []
  | S k =>
      let row := spec_step monthlyPayment monthlyInterestRate remaining in
      row :: spec_computeSchedule monthlyPayment monthlyInterestRate (snd row) k
  end.

(** ** The loop, unrolled *)

(** The rows [n] passes of the loop body append, starting from balance [b]. *)
Fixpoint rows_from (m r : Q) (n : nat) (b : Q) : list (Q * Q * Q) :=
  match n with
  | O => []
  | S k => code_step m r b :: rows_from m r k (snd (code_step m r b))
  end.

(** The running balance after [n] passes. *)
Fixpoint balance_after (m r : Q) (n : nat) (b : Q) : Q :=
  match n with
  | O => b
  | S k => balance_after m r k (snd (code_step m r b))
  end.

(** [x] to the power [n], by repeated multiplication. *)
Fixpoint qpow (x : Q) (n : nat) : Q :=
  match n with
  | O => 1
  | S k => x * qpow x k
  end.

(** ** The page *)






(** ** The same code on binary64 floats *)

(** The functions of the amortization engine once more, this time on
    IEEE 754 binary64 values with round-to-nearest-even, which is what
    Python's [float] computes with: [+], [-], [*] and [/] are the
    primitive operations of [PrimFloat].  None of them raises on overflow;
    the two operations that raise are the division by [0.0] and [**]. *)
Module F64.

Local Open Scope float_scope.

(** [x / y] on floats: raises when the divisor is [0.0] or [-0.0]. *)
Definition truediv (x y : float) : result float :=
  if y =? 0 then Raise ZeroDivisionError else Ok (x / y).

(** [sum(l)]: left to right from [0]. *)
Definition sum (l : list float) : float := fold_left add l 0.

Section Pow.

(** The C library's [pow], which CPython calls for a finite positive base
    other than [1.0]; IEEE 754 does not fix its result to the last bit, so
    it is a parameter. *)
Variable libm_pow : float -> Z -> float.

(** [x ** n] for a float [x] and an int [n] (the program has [n = 361]),
    as CPython's [float_pow] computes it: the special cases are settled
    before the library is called, and a result of infinity raises
    [OverflowError]. *)
Definition float_pow (x : float) (n : Z) : result float :=
  if (n =? 0)%Z then Ok 1
  else if is_nan x then Ok x
  else if is_infinity x then
    if (0 <? n)%Z then Ok (if Z.odd n then x else abs x)
    else Ok (if Z.odd n then (if x <? 0 then - 0 else 0) else 0)
  else if x =? 0 then
    if (n <? 0)%Z then Raise ZeroDivisionError
    else Ok (if Z.odd n then x else 0)
  else
    let negate_result := (x <? 0) && Z.odd n in
    let iv := abs x in
    if iv =? 1 then Ok (if negate_result then - 1 else 1)
    else
      let ix := libm_pow iv n in
      if is_infinity ix then Raise OverflowError
      else Ok (if negate_result then - ix else ix).

Definition monthly_payment (monthly_interest_rate financed_amt : float)
  : result float :=
  p <- float_pow (1 + monthly_interest_rate) 361 ;;
  let numer := monthly_interest_rate * p in
  p' <- float_pow (1 + monthly_interest_rate) 361 ;;
  let denom := p' - 1 in
  q <- truediv numer denom ;;
  Ok (financed_amt * q).

End Pow.

(** The power by repeated multiplication.  It stands in for the library's
    [pow] only at a base whose powers are all exact in binary64, such as
    [2.0], or whose power overflows binary64 by far, such as [8.0 ** 361]:
    there every [pow] returns the same value. *)
Definition pow_by_multiplication (x : float) (n : Z) : float :=
  Nat.iter (Z.to_nat n) (mul x) 1.

Definition principal_payment
  (monthly_payment monthly_interest_rate financed_amt : float) : float :=
  monthly_payment - (financed_amt * monthly_interest_rate).

Record loop_state : Type := mk_state {
  st_interest_pmt : list float;
  st_principal_pmt : list float;
  st_balance : list float;
  st_financed_amt : float
}.

(** One pass through the body of the [for] loop. *)
Definition amortization_body (monthly_payment monthly_interest_rate : float)
  (st : loop_state) (_ : nat) : loop_state :=
  let principal :=
    principal_payment monthly_payment monthly_interest_rate (st_financed_amt st) in
  let interest := monthly_payment - principal in
  let interest_pmt := st_interest_pmt st ++ [interest] in
  let principal_pmt := st_principal_pmt st ++ [principal] in
  let financed_amt := st_financed_amt st - principal in
  mk_state interest_pmt principal_pmt (st_balance st ++ [financed_amt]) financed_amt.

Definition amortization_loop (monthly_payment monthly_interest_rate : float)
  (indices : list nat) (st : loop_state) : loop_state :=
  fold_left (amortization_body monthly_payment monthly_interest_rate) indices st.

(** Returns [(principal_pmt, interest_pmt, balance)]. *)
Definition amortization
  (monthly_payment monthly_interest_rate financed_amt : float)
  : list float * list float * list float :=
  let st := amortization_loop monthly_payment monthly_interest_rate
              (range 1 362) (mk_state [] [] [] financed_amt) in
  (st_principal_pmt st, st_interest_pmt st, st_balance st).

Definition principal_column (m r F : float) : list float :=
  fst (fst (amortization m r F)).

Definition interest_column (m r F : float) : list float :=
  snd (fst (amortization m r F)).

Definition balance_column (m r F : float) : list float :=
  snd (amortization m r F).

(** The rows of [zip(principal_pmt, interest_pmt, balance)]. *)
Definition amortization_rows (m r F : float) : list (float * float * float) :=
  zip3 (principal_column m r F) (interest_column m r F) (balance_column m r F).

(** The balance a period starts from. *)
Definition opening_balance (financed_amt : float) (balance : list float)
  (t : nat) : float :=
  match t with
  | O => financed_amt
  | S k => nth k balance 0
  end.

(** What one pass of the loop body computes from the running balance. *)
Definition code_step (monthly_payment monthly_interest_rate balance : float)
  : float * float * float :=
  let principal :=
    principal_payment monthly_payment monthly_interest_rate balance in
  let interest := monthly_payment - principal in
  (principal, interest, balance - principal).

(** The period in the order of the specification. *)
Definition spec_step (monthlyPayment monthlyInterestRate remaining : float)
  : float * float * float :=
  let interestPayment := remaining * monthlyInterestRate in
  let principalPayment := monthlyPayment - interestPayment in
  (principalPayment, interestPayment, remaining - principalPayment).

Fixpoint spec_computeSchedule (monthlyPayment monthlyInterestRate remaining : float)
  (termMonths : nat) : list (float * float * float) :=
  match termMonths with
  | O => []
  | S k =>
      let row := spec_step monthlyPayment monthlyInterestRate remaining in
      row :: spec_computeSchedule monthlyPayment monthlyInterestRate (snd row) k
  end.

(** The rows [n] passes of the loop body append, starting from balance [b]. *)
Fixpoint rows_from (m r : float) (n : nat) (b : float)
  : list (float * float * float) :=
  match n with
  | O => []
  | S k => code_step m r b :: rows_from m r k (snd (code_step m r b))
  end.

(** The running balance after [n] passes. *)
Fixpoint balance_after (m r : float) (n : nat) (b : float) : float :=
  match n with
  | O => b
  | S k => balance_after m r k (snd (code_step m r b))
  end.

End F64.

(** * Properties *)

(** ** The loop and its unrolling *)

Section Loop.

Variables m r : Q.

Lemma amortization_loop_unroll (indices : list nat) :
  forall st,
    amortization_loop m r indices st =
    let rows := rows_from m r (length indices) (st_financed_amt st) in
    mk_state (st_interest_pmt st ++ map (fun x => snd (fst x)) rows)
             (st_principal_pmt st ++ map (fun x => fst (fst x)) rows)
             (st_balance st ++ map snd rows)
             (balance_after m r (length indices) (st_financed_amt st)).
Proof.
  unfold amortization_loop.
  induction indices as [|i indices IH]; intros [ip pp bl f].
  - simpl. now rewrite !app_nil_r.
  - cbn [fold_left length]. rewrite IH. simpl.
    now rewrite <- !app_assoc.
Qed.

Lemma range_length (start stop : nat) :
  length (range start stop) = (stop - start)%nat.
Proof. unfold range. apply length_seq. Qed.

Lemma amortization_unroll (F : Q) :
  amortization m r F =
  (map (fun x => fst (fst x)) (rows_from m r 361 F),
   map (fun x => snd (fst x)) (rows_from m r 361 F),
   map snd (rows_from m r 361 F)).
Proof.
  unfold amortization. rewrite amortization_loop_unroll.
  rewrite range_length. reflexivity.
Qed.

Lemma zip3_columns (l : list (Q * Q * Q)) :
  zip3 (map (fun x => fst (fst x)) l) (map (fun x => snd (fst x)) l)
       (map snd l) = l.
Proof.
  induction l as [|[[p i] b] l IH]; simpl; [reflexivity | now rewrite IH].
Qed.

Lemma principal_column_unroll (F : Q) :
  principal_column m r F = map (fun x => fst (fst x)) (rows_from m r 361 F).
Proof. unfold principal_column. now rewrite amortization_unroll. Qed.

Lemma interest_column_unroll (F : Q) :
  interest_column m r F = map (fun x => snd (fst x)) (rows_from m r 361 F).
Proof. unfold interest_column. now rewrite amortization_unroll. Qed.

Lemma balance_column_unroll (F : Q) :
  balance_column m r F = map snd (rows_from m r 361 F).
Proof. unfold balance_column. now rewrite amortization_unroll. Qed.

Lemma amortization_rows_unroll (F : Q) :
  amortization_rows m r F = rows_from m r 361 F.
Proof.
  unfold amortization_rows.
  rewrite principal_column_unroll, interest_column_unroll,
    balance_column_unroll.
  apply zip3_columns.
Qed.

Lemma rows_from_length (n : nat) : forall b, length (rows_from m r n b) = n.
Proof. induction n as [|n IH]; intros b; simpl; [reflexivity | now rewrite IH]. Qed.

Lemma balance_after_succ (n : nat) :
  forall b,
    balance_after m r (S n) b = snd (code_step m r (balance_after m r n b)).
Proof.
  induction n as [|n IH]; intros b; [reflexivity|].
  change (balance_after m r (S (S n)) b)
    with (balance_after m r (S n) (snd (code_step m r b))).
  now rewrite IH.
Qed.

(** Row [t] is the loop body applied to the balance after [t] passes. *)
Lemma rows_from_nth (n : nat) :
  forall t b d,
    (t < n)%nat ->
    nth t (rows_from m r n b) d = code_step m r (balance_after m r t b).
Proof.
  induction n as [|n IH]; intros t b d Ht; [lia|].
  destruct t as [|t]; [reflexivity|].
  simpl. apply IH. lia.
Qed.

End Loop.

(** ** Powers *)

Lemma qpow_Qpower (x : Q) (n : nat) : qpow x n == x ^ Z.of_nat n.
Proof.
  induction n as [|n IH].
  - reflexivity.
  - rewrite Nat2Z.inj_succ. unfold Z.succ.
    rewrite Qpower_plus' by lia.
    cbn [qpow]. rewrite IH. simpl (x ^ 1). ring.
Qed.

Lemma Qpower_361 (x : Q) : x ^ 361 == qpow x 361.
Proof. rewrite qpow_Qpower. reflexivity. Qed.



Lemma pow361_gt_1 (r : Q) : 0 < r -> 1 < (1 + r) ^ 361.
Proof. intros Hr. apply Qpower_1_lt; [lra | reflexivity]. Qed.

(** ** The payment formula *)

Lemma truediv_ok (x y : Q) : ~ y == 0 -> truediv x y = Ok (x / y).
Proof.
  intros Hy. unfold truediv.
  destruct (Qeq_bool y 0) eqn:E; [|reflexivity].
  apply Qeq_bool_eq in E. contradiction.
Qed.

Lemma truediv_zero (x y : Q) : y == 0 -> truediv x y = Raise ZeroDivisionError.
Proof.
  intros Hy. unfold truediv.
  apply Qeq_bool_iff in Hy. now rewrite Hy.
Qed.

Lemma monthly_payment_ok (r F : Q) :
  0 < r ->
  monthly_payment r F = Ok (F * (r * (1 + r) ^ 361 / ((1 + r) ^ 361 - 1))).
Proof.
  intros Hr. unfold monthly_payment.
  rewrite truediv_ok; [reflexivity|].
  pose proof (pow361_gt_1 r Hr) as HX.
  set (X := (1 + r) ^ 361) in *. lra.
Qed.

(** ** The running balance *)

Section Balance.

Variables m r : Q.

(** The closed form of the balance, cleared of its division by [r]. *)
Lemma balance_closed_form (n : nat) :
  forall b,
    r * balance_after m r n b ==
    r * b * qpow (1 + r) n - m * (qpow (1 + r) n - 1).
Proof.
  induction n as [|n IH]; intros b.
  - simpl. ring.
  - cbn [balance_after qpow]. rewrite IH.
    unfold code_step, principal_payment. simpl. ring.
Qed.

(** The principal payments of [n] periods add up to the fall of the
    balance. *)
Lemma principal_sum_telescopes (n : nat) :
  forall b a,
    fold_left Qplus (map (fun x => fst (fst x)) (rows_from m r n b)) a ==
    a + (b - balance_after m r n b).
Proof.
  induction n as [|n IH]; intros b a.
  - simpl. ring.
  - cbn [rows_from map fold_left balance_after]. rewrite IH.
    unfold code_step, principal_payment. simpl. ring.
Qed.



Lemma balance_nth (F : Q) (t : nat) :
  (t < 361)%nat ->
  nth t (balance_column m r F) 0 = balance_after m r (S t) F.
Proof.
  intros Ht. rewrite balance_column_unroll.
  change 0 with (snd ((0, 0, 0) : Q * Q * Q)).
  rewrite map_nth. rewrite rows_from_nth by assumption.
  now rewrite balance_after_succ.
Qed.

Lemma column_lengths (F : Q) :
  length (principal_column m r F) = 361%nat /\
  length (interest_column m r F) = 361%nat /\
  length (balance_column m r F) = 361%nat /\
  length (amortization_rows m r F) = 361%nat.
Proof.
  rewrite principal_column_unroll, interest_column_unroll,
    balance_column_unroll, amortization_rows_unroll.
  rewrite !length_map, rows_from_length. auto.
Qed.



End Balance.

(** ** The binary64 loop and its unrolling *)

Lemma zip3_of_columns {A B C : Type} (l : list (A * B * C)) :
  zip3 (map (fun x => fst (fst x)) l) (map (fun x => snd (fst x)) l)
       (map snd l) = l.
Proof.
  induction l as [|[[p i] b] l IH]; simpl; [reflexivity | now rewrite IH].
Qed.

Section LoopF64.

Variables m r : float.

Lemma amortization_loop_unroll_f64 (indices : list nat) :
  forall st,
    F64.amortization_loop m r indices st =
    let rows := F64.rows_from m r (length indices) (F64.st_financed_amt st) in
    F64.mk_state
      (F64.st_interest_pmt st ++ map (fun x => snd (fst x)) rows)
      (F64.st_principal_pmt st ++ map (fun x => fst (fst x)) rows)
      (F64.st_balance st ++ map snd rows)
      (F64.balance_after m r (length indices) (F64.st_financed_amt st)).
Proof.
  unfold F64.amortization_loop.
  induction indices as [|i indices IH]; intros [ip pp bl f].
  - simpl. now rewrite !app_nil_r.
  - cbn [fold_left length]. rewrite IH. simpl.
    now rewrite <- !app_assoc.
Qed.

Lemma amortization_unroll_f64 (F : float) :
  F64.amortization m r F =
  (map (fun x => fst (fst x)) (F64.rows_from m r 361 F),
   map (fun x => snd (fst x)) (F64.rows_from m r 361 F),
   map snd (F64.rows_from m r 361 F)).
Proof.
  unfold F64.amortization. rewrite amortization_loop_unroll_f64.
  rewrite range_length. reflexivity.
Qed.

Lemma amortization_rows_unroll_f64 (F : float) :
  F64.amortization_rows m r F = F64.rows_from m r 361 F.
Proof.
  unfold F64.amortization_rows, F64.principal_column, F64.interest_column,
    F64.balance_column.
  rewrite amortization_unroll_f64. cbn [fst snd].
  apply zip3_of_columns.
Qed.

Lemma balance_column_unroll_f64 (F : float) :
  F64.balance_column m r F = map snd (F64.rows_from m r 361 F).
Proof. unfold F64.balance_column. now rewrite amortization_unroll_f64. Qed.

Lemma rows_from_length_f64 (n : nat) :
  forall b, length (F64.rows_from m r n b) = n.
Proof. induction n as [|n IH]; intros b; simpl; [reflexivity | now rewrite IH]. Qed.

Lemma balance_after_succ_f64 (n : nat) :
  forall b,
    F64.balance_after m r (S n) b =
    snd (F64.code_step m r (F64.balance_after m r n b)).
Proof.
  induction n as [|n IH]; intros b; [reflexivity|].
  change (F64.balance_after m r (S (S n)) b)
    with (F64.balance_after m r (S n) (snd (F64.code_step m r b))).
  now rewrite IH.
Qed.

Lemma rows_from_nth_f64 (n : nat) :
  forall t b d,
    (t < n)%nat ->
    nth t (F64.rows_from m r n b) d =
    F64.code_step m r (F64.balance_after m r t b).
Proof.
  induction n as [|n IH]; intros t b d Ht; [lia|].
  destruct t as [|t]; [reflexivity|].
  simpl. apply IH. lia.
Qed.

Lemma amortization_rows_length_f64 (F : float) :
  length (F64.amortization_rows m r F) = 361%nat.
Proof. rewrite amortization_rows_unroll_f64. apply rows_from_length_f64. Qed.

Lemma amortization_rows_nth_error_f64 (F : float) (t : nat)
  (row : float * float * float) :
  nth_error (F64.amortization_rows m r F) t = Some row ->
  (t < 361)%nat /\
  row = F64.code_step m r (F64.balance_after m r t F).
Proof.
  intros H. rewrite amortization_rows_unroll_f64 in H.
  assert (Ht : (t < 361)%nat).
  { rewrite <- (rows_from_length_f64 361 F).
    apply nth_error_Some. congruence. }
  split; [exact Ht|].
  apply (nth_error_nth _ _ (0%float, 0%float, 0%float)) in H.
  rewrite rows_from_nth_f64 in H by exact Ht. now symmetry.
Qed.

Lemma opening_balance_after_f64 (F : float) (t : nat) :
  (t < 361)%nat ->
  F64.opening_balance F (F64.balance_column m r F) t =
  F64.balance_after m r t F.
Proof.
  intros Ht. destruct t as [|t]; [reflexivity|].
  cbn [F64.opening_balance]. rewrite balance_column_unroll_f64.
  change 0%float with (snd ((0, 0, 0) : float * float * float))%float.
  rewrite map_nth. rewrite rows_from_nth_f64 by lia.
  now rewrite balance_after_succ_f64.
Qed.

(** In both orders of the steps the principal payments and the balances of
    a whole schedule are the same floats. *)
Lemma rows_from_spec_columns_f64 (n : nat) :
  forall b,
    map (fun x => fst (fst x)) (F64.rows_from m r n b) =
    map (fun x => fst (fst x)) (F64.spec_computeSchedule m r b n) /\
    map snd (F64.rows_from m r n b) =
    map snd (F64.spec_computeSchedule m r b n).
Proof.
  induction n as [|n IH]; intros b; [split; reflexivity|].
  cbn [F64.rows_from F64.spec_computeSchedule map].
  change (snd (F64.spec_step m r b)) with (snd (F64.code_step m r b)).
  destruct (IH (snd (F64.code_step m r b))) as [IH1 IH2].
  rewrite IH1, IH2. split; reflexivity.
Qed.

End LoopF64.

(** ** Schedule length *)

(** C1 (as amended).  For every monthly payment, monthly rate and financed
    amount, each of the three lists [amortization] returns, and the schedule
    zipped from them, has exactly 361 entries: one per index of
    [range(1, 362)], that is one per period t = 1..361. *)
Theorem amortization_has_361_rows (m r F : Q) :
  length (range 1 362) = 361%nat /\
  range 1 362 = seq 1 361 /\
  length (principal_column m r F) = 361%nat /\
  length (interest_column m r F) = 361%nat /\
  length (balance_column m r F) = 361%nat /\
  length (amortization_rows m r F) = 361%nat.
Proof.
  split; [apply range_length|].
  split; [reflexivity|].
  apply column_lengths.
Qed.

(** C1, as stated, fails: the schedule of a 100000 loan at 0.5% a month
    paid 600 a month does not have 360 rows. *)
Lemma amortization_rows_not_360 :
  length (amortization_rows 600 (1 # 200) 100000) <> 360%nat.
Proof.
  destruct (column_lengths 600 (1 # 200) 100000) as (_ & _ & _ & H).
  rewrite H. lia.
Qed.

(** ** The payment formula and its exponent *)

(** C2 (as amended).  For every financed amount and every monthly rate at
    which [monthly_payment] returns a value (every r > 0 at which it does,
    in particular), the value is financed_amt * (r * p / (p - 1)) with
    p = (1 + r) ** N, each operation in binary64, and the exponent N is
    361, the number of periods of the schedule loop. *)
Theorem monthly_payment_annuity_361
  (libm_pow : float -> Z -> float) (F r v : float) :
  F64.monthly_payment libm_pow r F = Ok v ->
  (exists p,
     F64.float_pow libm_pow (1 + r)%float 361 = Ok p /\
     v = (F * (r * p / (p - 1)))%float) /\
  Z.of_nat (length (range 1 362)) = 361%Z /\
  forall m, Z.of_nat (length (F64.amortization_rows m r F)) = 361%Z.
Proof.
  intros H.
  split; [|split; [reflexivity|]].
  - unfold F64.monthly_payment in H.
    destruct (F64.float_pow libm_pow (1 + r)%float 361) as [p|e];
      cbn [bind] in H; [|discriminate H].
    unfold F64.truediv in H.
    destruct (p - 1 =? 0)%float; cbn [bind] in H; [discriminate H|].
    injection H as <-. exists p. split; reflexivity.
  - intros m. rewrite amortization_rows_length_f64. reflexivity.
Qed.

Lemma monthly_payment_annuity_361_witness :
  F64.monthly_payment F64.pow_by_multiplication 1 475000 = Ok 475000%float /\
  exists p,
    F64.float_pow F64.pow_by_multiplication (1 + 1)%float 361 = Ok p /\
    475000%float = (475000 * (1 * p / (p - 1)))%float.
Proof.
  assert (H : F64.monthly_payment F64.pow_by_multiplication 1 475000 =
              Ok 475000%float) by (vm_compute; reflexivity).
  split; [exact H|].
  exact (proj1 (monthly_payment_annuity_361 _ _ _ _ H)).
Defined.

(** C2, as stated, fails: at 0.5% a month on 100000 the payment returned is
    not the annuity payment with exponent 360. *)
Lemma monthly_payment_not_exponent_360 :
  ~ exists v,
      monthly_payment (1 # 200) 100000 = Ok v /\
      v == 100000 * ((1 # 200) * (1 + (1 # 200)) ^ 360 /
                     ((1 + (1 # 200)) ^ 360 - 1)).
Proof.
  intros (v & Hv & E).
  rewrite monthly_payment_ok in Hv by reflexivity.
  injection Hv as <-.
  revert E. apply Qeq_bool_neq. vm_compute. reflexivity.
Qed.

(** ** Zero rate *)

(** C3 (the code at the failing input).  With a monthly rate of zero the
    division in [monthly_payment] is 0/0 and raises [ZeroDivisionError],
    whatever the financed amount: there is no zero-rate branch.  So does
    [calculate] on the default inputs of the page with the interest rate
    set to 0. *)
Theorem monthly_payment_zero_rate_raises :
  (forall F, monthly_payment 0 F = Raise ZeroDivisionError) /\
  calculate (mk_kwargs 500000 (1 # 20) 0 (13 # 10) 1000 200) =
  Raise ZeroDivisionError.
Proof.
  split.
  - intros F. unfold monthly_payment.
    rewrite truediv_zero; [reflexivity|].
    apply Qeq_bool_eq. vm_compute. reflexivity.
  - vm_compute. reflexivity.
Qed.

(** ** The schedule pays the loan off *)

(** With the payment [monthly_payment] computes, the balance after the
    361 periods of the loop is exactly zero. *)
Lemma final_balance_zero (F r : Q) :
  0 < r ->
  balance_after (F * (r * (1 + r) ^ 361 / ((1 + r) ^ 361 - 1))) r 361 F == 0.
Proof.
  intros Hr.
  pose proof (pow361_gt_1 r Hr) as HX.
  pose proof (Qpower_361 (1 + r)) as HP.
  set (X := (1 + r) ^ 361) in *.
  set (m := F * (r * X / (X - 1))).
  pose proof (balance_closed_form m r 361 F) as H.
  rewrite <- HP in H.
  assert (H0 : r * balance_after m r 361 F == 0).
  { rewrite H. unfold m. field. lra. }
  apply Qmult_integral in H0. destruct H0 as [H0 | H0]; [lra | exact H0].
Qed.

(** C4 (as amended).  In exact rational arithmetic: for every financed
    amount > 0 and every monthly rate > 0 at which [monthly_payment]
    returns a payment, the principal payments of all the rows of the
    schedule computed with that payment add up to the financed amount
    exactly. *)
Theorem principal_sum_is_financed_amt (F r m : Q) :
  0 < F -> 0 < r ->
  monthly_payment r F = Ok m ->
  Py.sum (principal_column m r F) == F.
Proof.
  intros _ Hr Hm.
  assert (E : m = F * (r * (1 + r) ^ 361 / ((1 + r) ^ 361 - 1))).
  { rewrite (monthly_payment_ok r F Hr) in Hm. congruence. }
  subst m. clear Hm.
  unfold Py.sum.
  rewrite principal_column_unroll, principal_sum_telescopes.
  rewrite final_balance_zero by assumption. ring.
Qed.

Lemma principal_sum_is_financed_amt_witness :
  0 < 475000 /\ 0 < 49 # 9600 /\
  exists m,
    monthly_payment (49 # 9600) 475000 = Ok m /\
    Py.sum (principal_column m (49 # 9600) 475000) == 475000.
Proof.
  assert (HF : 0 < 475000) by reflexivity.
  assert (Hr : 0 < 49 # 9600) by reflexivity.
  assert (Hm : monthly_payment (49 # 9600) 475000 =
               Ok (475000 * ((49 # 9600) * (1 + (49 # 9600)) ^ 361 /
                             ((1 + (49 # 9600)) ^ 361 - 1)))).
  { apply monthly_payment_ok. reflexivity. }
  split; [exact HF|]. split; [exact Hr|].
  eexists. split; [exact Hm|].
  exact (principal_sum_is_financed_amt _ _ _ HF Hr Hm).
Defined.

(** C4, as stated, fails in binary64: at a monthly rate of 1.0 on 475000
    the payment returned is 475000.0, every principal payment is 0.0, and
    their sum is not within 1e-6 (relative) of the financed amount; the
    float below is the binary64 value of the literal 1e-6. *)
Lemma principal_sum_outside_tolerance :
  ~ exists m,
      F64.monthly_payment F64.pow_by_multiplication 1 475000 = Ok m /\
      (abs (F64.sum (F64.principal_column m 1 475000) - 475000) <=?
       0x1.0c6f7a0b5ed8dp-20 * 475000)%float = true.
Proof.
  intros (m & Hm & H).
  vm_compute in Hm. injection Hm as Hm. subst m.
  vm_compute in H. discriminate H.
Qed.

(** ** Bounds on the payment *)




(** ** The normalizers *)

Lemma in_unit_interval_iff (v : Q) :
  in_unit_interval v = true <-> 0 <= v <= 1.
Proof.
  unfold in_unit_interval. rewrite andb_true_iff, !Qle_bool_iff. tauto.
Qed.

Lemma in_unit_interval_false (v : Q) :
  ~ 0 <= v <= 1 -> in_unit_interval v = false.
Proof.
  intros H. destruct (in_unit_interval v) eqn:E; [|reflexivity].
  apply in_unit_interval_iff in E. contradiction.
Qed.





(** C8.  For every rate, [convert_rates] returns the rate unchanged when
    0 <= rate <= 1 and rate / 100 otherwise; in particular 0.05 stays 0.05,
    5 becomes 0.05, and at the boundary 1 stays 1. *)
Theorem convert_rates_spec :
  (forall rate,
     (0 <= rate <= 1 -> convert_rates rate = rate) /\
     (~ 0 <= rate <= 1 -> convert_rates rate = rate / 100)) /\
  convert_rates 0.05 == 0.05 /\
  convert_rates 5 == 0.05 /\
  convert_rates 1 == 1.
Proof.
  split; [|repeat split].
  intros rate. unfold convert_rates. split; intros H.
  - apply in_unit_interval_iff in H. now rewrite H.
  - now rewrite in_unit_interval_false.
Qed.

Lemma convert_rates_spec_witness :
  convert_rates (1 # 2) = 1 # 2 /\ convert_rates 6.125 = 6.125 / 100.
Proof.
  destruct convert_rates_spec as (Hconv & _).
  split.
  - apply (proj1 (Hconv (1 # 2))).
    split; apply Qle_bool_imp_le; reflexivity.
  - apply (proj2 (Hconv 6.125)).
    intros [_ H]. apply Qle_bool_iff in H. discriminate H.
Defined.

(** ** The rows of the schedule *)

Lemma opening_balance_after (m r F : Q) (t : nat) :
  (t < 361)%nat ->
  opening_balance F (balance_column m r F) t = balance_after m r t F.
Proof.
  intros Ht. destruct t as [|t]; [reflexivity|].
  cbn [opening_balance]. apply balance_nth. lia.
Qed.

(** Row [t] of the zipped schedule, when there is one. *)
Lemma amortization_rows_nth_error (m r F : Q) (t : nat) (row : Q * Q * Q) :
  nth_error (amortization_rows m r F) t = Some row ->
  (t < 361)%nat /\ row = code_step m r (balance_after m r t F).
Proof.
  intros H. rewrite amortization_rows_unroll in H.
  assert (Ht : (t < 361)%nat).
  { rewrite <- (rows_from_length m r 361 F).
    apply nth_error_Some. congruence. }
  split; [exact Ht|].
  apply (nth_error_nth _ _ (0, 0, 0)) in H.
  rewrite rows_from_nth in H by exact Ht. now symmetry.
Qed.



(** C10 (as amended).  Every row [amortization] emits has
    interest = monthly payment - principal and
    balance = opening balance - principal, each the single binary64
    subtraction the code performs (the opening balance is the financed
    amount for the first row and the previous row's balance afterwards);
    so principal + interest = monthly payment holds in exact arithmetic. *)
Theorem row_accounting_identity :
  (forall (m r F : float) (t : nat) (p i b : float),
     nth_error (F64.amortization_rows m r F) t = Some (p, i, b) ->
     i = (m - p)%float /\
     b = (F64.opening_balance F (F64.balance_column m r F) t - p)%float) /\
  (forall (m r F : Q) (t : nat) (p i b : Q),
     nth_error (amortization_rows m r F) t = Some (p, i, b) ->
     p + i == m /\
     b == opening_balance F (balance_column m r F) t - p).
Proof.
  split.
  - intros m r F t p i b H.
    apply amortization_rows_nth_error_f64 in H. destruct H as [Ht H].
    rewrite opening_balance_after_f64 by exact Ht.
    unfold F64.code_step in H. injection H as -> -> ->.
    split; reflexivity.
  - intros m r F t p i b H.
    apply amortization_rows_nth_error in H. destruct H as [Ht H].
    rewrite opening_balance_after by exact Ht.
    unfold code_step in H. injection H as -> -> ->.
    split; ring.
Qed.

Lemma row_accounting_identity_witness :
  (nth_error (F64.amortization_rows 3 1 2) 0 =
     Some (1%float, 2%float, 1%float) /\
   2%float = (3 - 1)%float /\
   1%float =
     (F64.opening_balance 2 (F64.balance_column 3 1 2) 0 - 1)%float) /\
  (exists p i b,
     nth_error (amortization_rows 600 (1 # 200) 100000) 0 = Some (p, i, b) /\
     p + i == 600 /\ b == 100000 - p).
Proof.
  assert (Hf : nth_error (F64.amortization_rows 3 1 2) 0 =
               Some (1%float, 2%float, 1%float)) by (vm_compute; reflexivity).
  assert (Hq : nth_error (amortization_rows 600 (1 # 200) 100000) 0 =
               Some (code_step 600 (1 # 200) 100000)).
  { rewrite amortization_rows_unroll. reflexivity. }
  split.
  - split; [exact Hf|].
    exact (proj1 row_accounting_identity _ _ _ _ _ _ _ Hf).
  - eexists _, _, _. split; [exact Hq|].
    exact (proj2 row_accounting_identity 600 (1 # 200) 100000 0%nat _ _ _ Hq).
Defined.

(** C10, as stated, fails in binary64: in the schedule of
    amortization(3.0, 1.0, 2.0) the principal and the interest of row 55
    are 18014398509481984.0 and -18014398509481980.0, which add up to 4.0,
    not to the payment 3.0. *)
Lemma row_sum_differs_from_payment :
  nth_error (F64.amortization_rows 3 1 2) 54 =
    Some (18014398509481984, -18014398509481980, -36028797018963964)%float /\
  (18014398509481984 + -18014398509481980 =? 3)%float = false.
Proof. split; vm_compute; reflexivity. Qed.

(** ** The order of the steps within a period *)

Lemma rows_from_refine_spec (m r : Q) (n : nat) :
  forall b, Forall2 row_eq (rows_from m r n b) (spec_computeSchedule m r b n).
Proof.
  induction n as [|n IH]; intros b; [constructor|].
  cbn [rows_from spec_computeSchedule]. constructor.
  - unfold row_eq, code_step, spec_step, principal_payment. simpl.
    repeat split; ring.
  - apply IH.
Qed.

(** C5 (as amended).  For every monthly payment, monthly rate and starting
    balance, one period of the loop of [amortization] yields the same
    principal payment and the same remaining balance as the order of the
    specification, float for float, and so do the whole schedules over the
    same number of periods; the interest payment, which the code computes
    as payment - principal and the specification as balance * rate, is the
    same in exact arithmetic. *)
Theorem code_step_refines_spec_step :
  (forall (m r : float) st i,
     F64.amortization_body m r st i =
     let row := F64.code_step m r (F64.st_financed_amt st) in
     F64.mk_state (F64.st_interest_pmt st ++ [snd (fst row)])
                  (F64.st_principal_pmt st ++ [fst (fst row)])
                  (F64.st_balance st ++ [snd row])
                  (snd row)) /\
  (forall m r b : float,
     fst (fst (F64.code_step m r b)) = fst (fst (F64.spec_step m r b)) /\
     snd (F64.code_step m r b) = snd (F64.spec_step m r b)) /\
  (forall m r F : float,
     F64.principal_column m r F =
       map (fun x => fst (fst x))
         (F64.spec_computeSchedule m r F (length (range 1 362))) /\
     F64.balance_column m r F =
       map snd (F64.spec_computeSchedule m r F (length (range 1 362)))) /\
  (forall (m r : Q) st i,
     amortization_body m r st i =
     let row := code_step m r (st_financed_amt st) in
     mk_state (st_interest_pmt st ++ [snd (fst row)])
              (st_principal_pmt st ++ [fst (fst row)])
              (st_balance st ++ [snd row])
              (snd row)) /\
  (forall m r b : Q, row_eq (code_step m r b) (spec_step m r b)) /\
  (forall m r b : Q,
     Forall2 row_eq (amortization_rows m r b)
       (spec_computeSchedule m r b (length (range 1 362)))).
Proof.
  split; [reflexivity|]. split; [split; reflexivity|].
  split.
  { intros m r F. rewrite range_length.
    unfold F64.principal_column, F64.balance_column.
    rewrite amortization_unroll_f64. cbn [fst snd].
    apply rows_from_spec_columns_f64. }
  split; [reflexivity|]. split.
  - intros m r b.
    unfold row_eq, code_step, spec_step, principal_payment. simpl.
    repeat split; ring.
  - intros m r b. rewrite amortization_rows_unroll, range_length.
    apply rows_from_refine_spec.
Qed.

(** C5, as stated, fails in binary64: from payment 1.0, rate 2^-54 and
    balance 1.0 the period of the code has interest 0.0, the period in the
    order of the specification has interest 2^-54. *)
Lemma code_step_interest_differs :
  F64.code_step 1 0x1p-54 1 = (1, 0, 0)%float /\
  F64.spec_step 1 0x1p-54 1 = (1, 0x1p-54, 0)%float /\
  (snd (fst (F64.code_step 1 0x1p-54 1)) =?
   snd (fst (F64.spec_step 1 0x1p-54 1)))%float = false.
Proof. repeat split; vm_compute; reflexivity. Qed.

(** * Further properties of the code *)

(** ** When the payment formula fails *)






Lemma monthly_payment_zero_rate (r F : Q) :
  r == 0 -> monthly_payment r F = Raise ZeroDivisionError.
Proof.
  intros Hr. unfold monthly_payment.
  rewrite truediv_zero; [reflexivity|].
  rewrite Hr. reflexivity.
Qed.

(** X1.  The error paths of [monthly_payment] in binary64, whatever the
    library's [pow] returns: it raises [ZeroDivisionError] whenever
    1 + rate is the float 1.0, which is so at rate 0 and also at positive
    rates such as 2^-53; and at rate 7.0 it raises [OverflowError] when
    the library's 8.0 ** 361 is infinite. *)
Theorem monthly_payment_error_paths
  (libm_pow : float -> Z -> float) (F : float) :
  (forall r : float,
     (1 + r)%float = 1%float ->
     F64.monthly_payment libm_pow r F = Raise ZeroDivisionError) /\
  F64.monthly_payment libm_pow 0 F = Raise ZeroDivisionError /\
  F64.monthly_payment libm_pow 0x1p-53 F = Raise ZeroDivisionError /\
  (is_infinity (libm_pow 8%float 361%Z) = true ->
   F64.monthly_payment libm_pow 7 F = Raise OverflowError).
Proof.
  assert (H1 : forall r : float,
             (1 + r)%float = 1%float ->
             F64.monthly_payment libm_pow r F = Raise ZeroDivisionError).
  { intros r H. unfold F64.monthly_payment. rewrite H.
    vm_compute. reflexivity. }
  split; [exact H1|].
  split; [apply H1; reflexivity|].
  split; [apply H1; reflexivity|].
  intros H. unfold F64.monthly_payment, F64.float_pow.
  change (abs (1 + 7))%float with 8%float.
  set (z := libm_pow 8%float 361%Z) in *.
  unfold is_infinity in *.
  destruct (abs z =? infinity)%float; [|discriminate H].
  vm_compute. reflexivity.
Qed.

Lemma monthly_payment_error_paths_witness :
  (1 + 0x1p-53)%float = 1%float /\
  F64.monthly_payment F64.pow_by_multiplication 0x1p-53 1000 =
    Raise ZeroDivisionError /\
  is_infinity (F64.pow_by_multiplication 8 361) = true /\
  F64.monthly_payment F64.pow_by_multiplication 7 1000 = Raise OverflowError.
Proof.
  assert (H1 : (1 + 0x1p-53)%float = 1%float) by reflexivity.
  assert (H2 : is_infinity (F64.pow_by_multiplication 8 361) = true)
    by (vm_compute; reflexivity).
  destruct (monthly_payment_error_paths F64.pow_by_multiplication 1000)
    as (T1 & _ & _ & T4).
  split; [exact H1|]. split; [exact (T1 0x1p-53%float H1)|].
  split; [exact H2 | exact (T4 H2)].
Defined.

(** ** When [calculate] fails *)

Lemma convert_rates_zero_iff (rate : Q) : convert_rates rate == 0 <-> rate == 0.
Proof.
  unfold convert_rates. destruct (in_unit_interval rate) eqn:E; [tauto|].
  split; intros H.
  - exfalso.
    assert (E' : in_unit_interval rate = true).
    { apply in_unit_interval_iff.
      assert (rate == 0).
      { setoid_replace rate with (rate / 100 * 100) by (field; discriminate).
        rewrite H. ring. }
      lra. }
    congruence.
  - rewrite H. reflexivity.
Qed.


Lemma monthly_rate_zero_iff (kw : kwargs) :
  convert_rates (interest_rate kw) / 12 == 0 <-> interest_rate kw == 0.
Proof.
  rewrite <- (convert_rates_zero_iff (interest_rate kw)).
  set (c := convert_rates (interest_rate kw)).
  split; intros H.
  - assert (E : c == c / 12 * 12) by (field; discriminate).
    rewrite E, H. ring.
  - rewrite H. reflexivity.
Qed.

(** X2.  Whatever the other five inputs, an interest rate of zero makes
    [calculate] raise [ZeroDivisionError]. *)
Theorem calculate_raises_at_zero_interest (kw : kwargs) :
  interest_rate kw == 0 -> calculate kw = Raise ZeroDivisionError.
Proof.
  intros H. apply monthly_rate_zero_iff in H.
  unfold calculate. rewrite (monthly_payment_zero_rate _ _ H). reflexivity.
Qed.

Lemma calculate_raises_at_zero_interest_witness :
  0 == 0 /\
  calculate (mk_kwargs 250000 50000 0 1.3 1000 200) = Raise ZeroDivisionError.
Proof.
  assert (H : 0 == 0) by reflexivity.
  split; [exact H|].
  exact (calculate_raises_at_zero_interest
           (mk_kwargs 250000 50000 0 1.3 1000 200) H).
Defined.

(** ** What a returned payment is *)


(** ** The shape of the schedule, for any payment *)












(** ** The normalizers on the inputs of the page *)

Lemma convert_rates_in_unit (rate : Q) :
  0 <= rate <= 100 -> 0 <= convert_rates rate <= 1.
Proof.
  intros [H0 H100].
  unfold convert_rates. destruct (in_unit_interval rate) eqn:E.
  - now apply in_unit_interval_iff.
  - split.
    + apply Qle_shift_div_l; [reflexivity | lra].
    + apply Qle_shift_div_r; [reflexivity | lra].
Qed.

(** X10.  On a rate between 0 and 100, the range the page documents,
    [convert_rates] yields a fraction between 0 and 1, and converting that
    result again leaves it unchanged. *)
Theorem convert_rates_range (rate : Q) :
  0 <= rate <= 100 ->
  0 <= convert_rates rate <= 1 /\
  convert_rates (convert_rates rate) = convert_rates rate.
Proof.
  intros Hr.
  pose proof (convert_rates_in_unit rate Hr) as H.
  split; [exact H|].
  apply in_unit_interval_iff in H.
  unfold convert_rates at 1. now rewrite H.
Qed.

Lemma convert_rates_range_witness :
  0 <= 6.125 <= 100 /\
  0 <= convert_rates 6.125 <= 1 /\
  convert_rates (convert_rates 6.125) = convert_rates 6.125.
Proof.
  assert (H : 0 <= 6.125 <= 100)
    by (split; apply Qle_bool_imp_le; reflexivity).
  split; [exact H|].
  exact (convert_rates_range 6.125 H).
Defined.



(** ** What [calculate] returns *)







(** ** The numbers [main] displays *)




